(** * Drawing store service: a model of [backend/main.py]

    The service keeps one SQLite table, [drawings], and offers five
    operations over it.  The table is modelled as the list of its rows in
    insertion order, each handler as a function from the table (and the
    readings of the clock and of the random source the handler takes) to a
    result and the table afterwards.  [json.dumps] and [json.loads], which
    the handlers call on the [canvas_state] column, are modelled on
    characters, after the pure-Python implementation of the [json] package
    with its default options. *)

From Stdlib Require Import List String Ascii ZArith NArith Bool Lia.
From Stdlib Require Import Permutation Sorted.
From Stdlib Require DecimalFacts DecimalPos DecimalN.
Import ListNotations.

Set Implicit Arguments.
Set Warnings "-register-all".

(** ** Python's [json] package *)

Module PyJson.

Local Open Scope char_scope.
Local Open Scope list_scope.

(** The text [json.dumps] produces and [json.loads] reads. *)
Definition text := list ascii.

(** A decoded document.  A Python [dict] keeps its keys in insertion
    order, so an object is the list of its items; [str] is restricted to
    the code points below 256 and numbers to [int]. *)
Inductive json : Type :=
| JNull
| JBool (b : bool)
| JInt (n : Z)
| JStr (s : string)
| JArr (items : list json)
| JObj (pairs : list (string * json)).

Definition dict := list (string * json).

Definition code (c : ascii) : N := N_of_ascii c.

Definition quote : ascii := "034".
Definition backslash : ascii := "\".

(** *** Encoder: [py_encode_basestring_ascii] *)

Definition hexdigit (n : N) : ascii :=
  if (n <? 10)%N then ascii_of_N (48 + n) else ascii_of_N (87 + n).

(** [ESCAPE_DCT], then ['\\u{0:04x}'.format(n)] for what is left outside
    the range from space to tilde. *)
Definition replace (c : ascii) : text :=
  if Ascii.eqb c backslash then [backslash; backslash]
  else if Ascii.eqb c quote then [backslash; quote]
  else if Ascii.eqb c "008" then [backslash; "b"]
  else if Ascii.eqb c "012" then [backslash; "f"]
  else if Ascii.eqb c "010" then [backslash; "n"]
  else if Ascii.eqb c "013" then [backslash; "r"]
  else if Ascii.eqb c "009" then [backslash; "t"]
  else if ((32 <=? code c) && (code c <=? 126))%N then [c]
  else [backslash; "u"; "0"; "0"; hexdigit (code c / 16); hexdigit (code c mod 16)].

Fixpoint escape (s : string) : text :=
  match s with
  | EmptyString => []
  | String c s' => replace c ++ escape s'
  end.

Definition encode_basestring_ascii (s : string) : text :=
  quote :: escape s ++ [quote].

(** *** Encoder: [int.__repr__] *)

Fixpoint digits (d : Decimal.uint) : text :=
  match d with
  | Decimal.Nil => []
  | Decimal.D0 d' => "0" :: digits d'
  | Decimal.D1 d' => "1" :: digits d'
  | Decimal.D2 d' => "2" :: digits d'
  | Decimal.D3 d' => "3" :: digits d'
  | Decimal.D4 d' => "4" :: digits d'
  | Decimal.D5 d' => "5" :: digits d'
  | Decimal.D6 d' => "6" :: digits d'
  | Decimal.D7 d' => "7" :: digits d'
  | Decimal.D8 d' => "8" :: digits d'
  | Decimal.D9 d' => "9" :: digits d'
  end.

Definition int_repr (n : Z) : text :=
  match n with
  | Z0 => ["0"]
  | Zpos p => digits (Pos.to_uint p)
  | Zneg p => "-" :: digits (Pos.to_uint p)
  end.

(** *** Encoder: [json.dumps] with the default separators *)

(** [', '.join(chunks)] *)
Fixpoint join (chunks : list text) : text :=
  match chunks with
  | [] => []
  | [x] => x
  | x :: rest => x ++ ["," ; " "] ++ join rest
  end.

Fixpoint encode (v : json) : text :=
  match v with
  | JNull => ["n"; "u"; "l"; "l"]
  | JBool true => ["t"; "r"; "u"; "e"]
  | JBool false => ["f"; "a"; "l"; "s"; "e"]
  | JInt n => int_repr n
  | JStr s => encode_basestring_ascii s
  | JArr items => "[" :: join (map encode items) ++ ["]"]
  | JObj pairs =>
      "{" :: join (map (fun kv => encode_basestring_ascii (fst kv)
                                   ++ [":"; " "] ++ encode (snd kv)) pairs)
          ++ ["}"]
  end.

Definition dumps (obj : dict) : string :=
  string_of_list_ascii (encode (JObj obj)).

(** *** Decoder: [py_scanstring] *)

Definition hexval (c : ascii) : option N :=
  let n := code c in
  if ((48 <=? n) && (n <=? 57))%N then Some (n - 48)%N
  else if ((97 <=? n) && (n <=? 102))%N then Some (n - 87)%N
  else if ((65 <=? n) && (n <=? 70))%N then Some (n - 55)%N
  else None.

(** [_decode_uXXXX]: four hexadecimal digits. *)
Definition decode_uXXXX (h1 h2 h3 h4 : ascii) : option N :=
  match hexval h1, hexval h2, hexval h3, hexval h4 with
  | Some a, Some b, Some c, Some d => Some (((a * 16 + b) * 16 + c) * 16 + d)%N
  | _, _, _, _ => None
  end.

(** The [BACKSLASH] table. *)
Definition BACKSLASH (esc : ascii) : option ascii :=
  if Ascii.eqb esc quote then Some quote
  else if Ascii.eqb esc backslash then Some backslash
  else if Ascii.eqb esc "/" then Some "/"
  else if Ascii.eqb esc "b" then Some "008"
  else if Ascii.eqb esc "f" then Some "012"
  else if Ascii.eqb esc "n" then Some "010"
  else if Ascii.eqb esc "r" then Some "013"
  else if Ascii.eqb esc "t" then Some "009"
  else None.

Definition cons_chunk (c : ascii) (r : option (string * text)) : option (string * text) :=
  match r with
  | Some (s, rest) => Some (String c s, rest)
  | None => None
  end.

(** [py_scanstring] in strict mode, entered after the opening quote.  An
    escape that names a code point of 256 or more has no image in the
    modelled [str] and is refused. *)
Fixpoint scanstring (s : text) : option (string * text) :=
  match s with
  | [] => None
  | c :: r =>
      if Ascii.eqb c quote then Some (EmptyString, r)
      else if Ascii.eqb c backslash then
        match r with
        | [] => None
        | esc :: r1 =>
            if Ascii.eqb esc "u" then
              match r1 with
              | h1 :: h2 :: h3 :: h4 :: r2 =>
                  match decode_uXXXX h1 h2 h3 h4 with
                  | Some uni =>
                      if (uni <? 256)%N then cons_chunk (ascii_of_N uni) (scanstring r2)
                      else None
                  | None => None
                  end
              | _ => None
              end
            else
              match BACKSLASH esc with
              | Some ch => cons_chunk ch (scanstring r1)
              | None => None
              end
        end
      else if (code c <? 32)%N then None
      else cons_chunk c (scanstring r)
  end.

(** *** Decoder: [NUMBER_RE] and [int] *)

Definition digit_of (c : ascii) : option (Decimal.uint -> Decimal.uint) :=
  if Ascii.eqb c "0" then Some Decimal.D0
  else if Ascii.eqb c "1" then Some Decimal.D1
  else if Ascii.eqb c "2" then Some Decimal.D2
  else if Ascii.eqb c "3" then Some Decimal.D3
  else if Ascii.eqb c "4" then Some Decimal.D4
  else if Ascii.eqb c "5" then Some Decimal.D5
  else if Ascii.eqb c "6" then Some Decimal.D6
  else if Ascii.eqb c "7" then Some Decimal.D7
  else if Ascii.eqb c "8" then Some Decimal.D8
  else if Ascii.eqb c "9" then Some Decimal.D9
  else None.

Definition is_digit (c : ascii) : bool :=
  match digit_of c with Some _ => true | None => false end.

(** The longest run of decimal digits. *)
Fixpoint scan_digits (s : text) : Decimal.uint * text :=
  match s with
  | [] => (Decimal.Nil, [])
  | c :: r =>
      match digit_of c with
      | Some d => let (ds, rest) := scan_digits r in (d ds, rest)
      | None => (Decimal.Nil, s)
      end
  end.

(** A lone zero, or a non-zero digit and the digits after it. *)
Definition match_natural (s : text) : option (Decimal.uint * text) :=
  match s with
  | [] => None
  | c :: r =>
      if Ascii.eqb c "0" then Some (Decimal.D0 Decimal.Nil, r)
      else if is_digit c then Some (scan_digits s)
      else None
  end.

(** The integer group of [NUMBER_RE], an optional minus sign before a
    natural, with the value [int] gives to the match. *)
Definition match_integer (s : text) : option (Z * text) :=
  match s with
  | [] => None
  | c :: r =>
      if Ascii.eqb c "-" then
        match match_natural r with
        | Some (d, rest) => Some (Z.opp (Z.of_N (N.of_uint d)), rest)
        | None => None
        end
      else
        match match_natural s with
        | Some (d, rest) => Some (Z.of_N (N.of_uint d), rest)
        | None => None
        end
  end.

Definition starts_with_digit (s : text) : bool :=
  match s with
  | c :: _ => is_digit c
  | [] => false
  end.

(** Whether [(\.[0-9]+)?([eE][-+]?[0-9]+)?] matches a non-empty string
    here, which makes the literal a [float]. *)
Definition float_tail (s : text) : bool :=
  match s with
  | [] => false
  | c :: r =>
      if Ascii.eqb c "." then starts_with_digit r
      else if Ascii.eqb c "e" || Ascii.eqb c "E" then
        match r with
        | [] => false
        | c2 :: r2 =>
            if Ascii.eqb c2 "-" || Ascii.eqb c2 "+" then starts_with_digit r2
            else is_digit c2
        end
      else false
  end.

(** *** Decoder: [scan_once], [JSONArray], [JSONObject] *)

Definition is_ws (c : ascii) : bool :=
  Ascii.eqb c " " || Ascii.eqb c "009" || Ascii.eqb c "010" || Ascii.eqb c "013".

(** [WHITESPACE.match(s, end).end()] *)
Fixpoint skip_ws (s : text) : text :=
  match s with
  | c :: r => if is_ws c then skip_ws r else s
  | [] => []
  end.

(** [s[idx:idx + len(lit)] == lit], giving what follows. *)
Fixpoint literal (lit s : text) : option text :=
  match lit, s with
  | [], _ => Some s
  | a :: lit', b :: s' => if Ascii.eqb a b then literal lit' s' else None
  | _ :: _, [] => None
  end.

(** [dict(pairs)]: a later item with a key already present replaces the
    value and keeps the place of the first. *)
Fixpoint dict_set (d : dict) (k : string) (v : json) : dict :=
  match d with
  | [] => [(k, v)]
  | (k', v') :: d' =>
      if String.eqb k' k then (k', v) :: d' else (k', v') :: dict_set d' k v
  end.

Definition dict_of_pairs (pairs : list (string * json)) : dict :=
  fold_left (fun d kv => dict_set d (fst kv) (snd kv)) pairs [].

Section Loops.

Variable scan : text -> option (json * text).

(** The loop of [JSONArray], entered at the first value.  [n] bounds
    the number of values; [JSONArray] passes the length of the text, and
    every value takes at least one character. *)
Fixpoint array_loop (n : nat) (s : text) : option (list json * text) :=
  match n with
  | O => None
  | S n' =>
      match scan s with
      | None => None
      | Some (value, r) =>
          match skip_ws r with
          | c :: r1 =>
              if Ascii.eqb c "]" then Some ([value], r1)
              else if Ascii.eqb c "," then
                match array_loop n' (skip_ws r1) with
                | Some (values, rest) => Some (value :: values, rest)
                | None => None
                end
              else None
          | [] => None
          end
      end
  end.

Definition JSONArray (s : text) : option (json * text) :=
  match skip_ws s with
  | c :: r =>
      if Ascii.eqb c "]" then Some (JArr [], r)
      else
        match array_loop (List.length s) (skip_ws s) with
        | Some (values, rest) => Some (JArr values, rest)
        | None => None
        end
  | [] => None
  end.

(** The loop of [JSONObject], entered after the quote that opens a
    key. *)
Fixpoint object_loop (n : nat) (s : text) : option (list (string * json) * text) :=
  match n with
  | O => None
  | S n' =>
      match scanstring s with
      | None => None
      | Some (key, r) =>
          match skip_ws r with
          | c :: r1 =>
              if Ascii.eqb c ":" then
                match scan (skip_ws r1) with
                | None => None
                | Some (value, r2) =>
                    match skip_ws r2 with
                    | c2 :: r3 =>
                        if Ascii.eqb c2 "}" then Some ([(key, value)], r3)
                        else if Ascii.eqb c2 "," then
                          match skip_ws r3 with
                          | c3 :: r4 =>
                              if Ascii.eqb c3 quote then
                                match object_loop n' r4 with
                                | Some (pairs, rest) => Some ((key, value) :: pairs, rest)
                                | None => None
                                end
                              else None
                          | [] => None
                          end
                        else None
                    | [] => None
                    end
                end
              else None
          | [] => None
          end
      end
  end.

Definition JSONObject (s : text) : option (json * text) :=
  match skip_ws s with
  | c :: r =>
      if Ascii.eqb c "}" then Some (JObj [], r)
      else if Ascii.eqb c quote then
        match object_loop (List.length s) r with
        | Some (pairs, rest) => Some (JObj (dict_of_pairs pairs), rest)
        | None => None
        end
      else None
  | [] => None
  end.

End Loops.

(** [_scan_once]; [depth] bounds the nesting of arrays and objects, and
    [decode] passes more than the length of the text, every level taking
    at least one character.  A literal that Python reads as a [float]
    ([NaN] and the infinities among them) has no image in [json] and is
    refused. *)
Fixpoint scan_once (depth : nat) (s : text) : option (json * text) :=
  match depth with
  | O => None
  | S depth' =>
      match s with
      | [] => None
      | nextchar :: r =>
          if Ascii.eqb nextchar quote then
            match scanstring r with
            | Some (str, rest) => Some (JStr str, rest)
            | None => None
            end
          else if Ascii.eqb nextchar "{" then JSONObject (scan_once depth') r
          else if Ascii.eqb nextchar "[" then JSONArray (scan_once depth') r
          else
            match literal ["n"; "u"; "l"; "l"] s with
            | Some rest => Some (JNull, rest)
            | None =>
            match literal ["t"; "r"; "u"; "e"] s with
            | Some rest => Some (JBool true, rest)
            | None =>
            match literal ["f"; "a"; "l"; "s"; "e"] s with
            | Some rest => Some (JBool false, rest)
            | None =>
            match match_integer s with
            | Some (n, rest) => if float_tail rest then None else Some (JInt n, rest)
            | None => None
            end end end end
      end
  end.

(** [JSONDecoder.decode]: one value between optional white space, with
    nothing after it. *)
Definition decode (s : text) : option json :=
  match scan_once (S (List.length s)) (skip_ws s) with
  | Some (obj, rest) =>
      match skip_ws rest with
      | [] => Some obj
      | _ :: _ => None
      end
  | None => None
  end.

Definition loads (s : string) : option json :=
  decode (list_ascii_of_string s).




(** What may follow a value in the output of the encoder: nothing, or one
    of the three delimiters. *)
Definition stop (r : text) : Prop :=
  match r with
  | [] => True
  | c :: _ => c = "," \/ c = "]" \/ c = "}"
  end.



End PyJson.

(** ** Python's [uuid] package *)

Module Uuid.

(** [uuid.uuid4()]: the 128 bits read from [os.urandom(16)], with the
    variant and the version set as [UUID.__init__] does for [version=4]. *)
Definition uuid4 (random : N) : N :=
  let int := N.land random (N.ones 128) in
  let int := N.ldiff int (N.shiftl 0xc000 48) in
  let int := N.lor int (N.shiftl 0x8000 48) in
  let int := N.ldiff int (N.shiftl 0xf000 64) in
  N.lor int (N.shiftl 4 76).

(** The hexadecimal digit of [int] at place [i], counted from the least
    significant. *)
Definition nibble (int : N) (i : N) : ascii :=
  PyJson.hexdigit (N.land (N.shiftr int (4 * i)) 15).

(** [UUID.__str__]: ['%032x' % self.int], cut in groups of 8, 4, 4, 4 and
    12 digits joined by dashes. *)
Definition str (int : N) : string :=
  let h := nibble int in
  string_of_list_ascii
    ([h 31; h 30; h 29; h 28; h 27; h 26; h 25; h 24] ++ ["-"%char] ++
     [h 23; h 22; h 21; h 20] ++ ["-"%char] ++
     [h 19; h 18; h 17; h 16] ++ ["-"%char] ++
     [h 15; h 14; h 13; h 12] ++ ["-"%char] ++
     [h 11; h 10; h 9; h 8; h 7; h 6; h 5; h 4; h 3; h 2; h 1; h 0])%N.

Arguments uuid4 : simpl never.
Arguments str : simpl never.

End Uuid.

(** ** The service *)

Import PyJson.
Local Open Scope string_scope.
Local Open Scope list_scope.

(** *** The [drawings] table *)

(** A row of [drawings]; every column holds text. *)
Record row : Type := Row {
  id : string;
  name : string;
  preview_image : string;
  canvas_state : string;
  created_at : string;
  updated_at : string
}.

(** The table: its rows, oldest insertion first. *)
Definition table := list row.

(** [init_db] on a database without the table. *)
Definition init_db : table := [].

(** [SELECT ... FROM drawings WHERE id = ?] followed by [fetchone()]. *)
Definition select_by_id (db : table) (drawing_id : string) : option row :=
  find (fun r => String.eqb (id r) drawing_id) db.

(** [INSERT INTO drawings ... VALUES ...]; [id] is the primary key, and a
    second row with a key already present raises [IntegrityError]. *)
Definition insert (db : table) (r : row) : option table :=
  match select_by_id db (id r) with
  | Some _ => None
  | None => Some (db ++ [r])
  end.

(** The columns [update_drawing] assigns. *)
Inductive column : Type :=
| col_name
| col_preview_image
| col_canvas_state
| col_updated_at.

Definition assign (r : row) (f : column * string) : row :=
  match fst f with
  | col_name => Row (id r) (snd f) (preview_image r) (canvas_state r) (created_at r) (updated_at r)
  | col_preview_image => Row (id r) (name r) (snd f) (canvas_state r) (created_at r) (updated_at r)
  | col_canvas_state => Row (id r) (name r) (preview_image r) (snd f) (created_at r) (updated_at r)
  | col_updated_at => Row (id r) (name r) (preview_image r) (canvas_state r) (created_at r) (snd f)
  end.

(** [UPDATE drawings SET ... WHERE id = ?], the assignments taken in the
    order in which the clause lists them. *)
Definition update_where_id (db : table) (fields : list (column * string))
    (drawing_id : string) : table :=
  map (fun r => if String.eqb (id r) drawing_id then fold_left assign fields r else r) db.

(** [DELETE FROM drawings WHERE id = ?] *)
Definition delete_where_id (db : table) (drawing_id : string) : table :=
  filter (fun r => negb (String.eqb (id r) drawing_id)) db.

(** [ORDER BY updated_at DESC]: text is compared byte by byte; rows with
    equal keys stay in the order of the table. *)
Fixpoint insert_desc (r : row) (sorted : list row) : list row :=
  match sorted with
  | [] => [r]
  | r' :: rest =>
      if String.ltb (updated_at r) (updated_at r') then r' :: insert_desc r rest
      else r :: sorted
  end.

Definition order_by_updated_at_desc (db : table) : list row :=
  fold_right insert_desc [] db.

(** *** The pydantic models *)

Record DrawingCreate : Type := {
  create_name : string;
  create_preview_image : string;
  create_canvas_state : dict
}.

Record DrawingUpdate : Type := {
  update_name : option string;
  update_preview_image : option string;
  update_canvas_state : option dict
}.

Record DrawingResponse : Type := {
  response_id : string;
  response_name : string;
  response_preview_image : string;
  response_canvas_state : dict;
  response_created_at : string;
  response_updated_at : string
}.

(** What a handler gives back: its return value, or the [HTTPException]
    it raises. *)
Inductive outcome (A : Type) : Type :=
| Ok (value : A)
| HTTPException (status_code : nat).

Arguments Ok {A} value.
Arguments HTTPException {A} status_code.

(** [DrawingResponse(id=row[0], ..., canvas_state=json.loads(row[3]), ...)]:
    [None] when [json.loads] raises or its value is not a [dict]. *)
Definition response_of_row (r : row) : option DrawingResponse :=
  match loads (canvas_state r) with
  | Some (JObj document) =>
      Some {| response_id := id r;
              response_name := name r;
              response_preview_image := preview_image r;
              response_canvas_state := document;
              response_created_at := created_at r;
              response_updated_at := updated_at r |}
  | _ => None
  end.

(** *** The handlers *)

(** [POST /drawings].  [random] is what [os.urandom] gives [uuid4], [now]
    is [datetime.now().isoformat()]. *)
Definition create_drawing (db : table) (random : N) (now : string)
    (drawing : DrawingCreate) : outcome DrawingResponse * table :=
  let drawing_id := Uuid.str (Uuid.uuid4 random) in
  let current_time := now in
  match insert db (Row drawing_id (create_name drawing) (create_preview_image drawing)
                       (dumps (create_canvas_state drawing)) current_time current_time) with
  | Some db' =>
      (Ok {| response_id := drawing_id;
             response_name := create_name drawing;
             response_preview_image := create_preview_image drawing;
             response_canvas_state := create_canvas_state drawing;
             response_created_at := current_time;
             response_updated_at := current_time |}, db')
  | None => (HTTPException 500, db)
  end.

(** The loop of [get_drawings] over the fetched rows. *)
Fixpoint responses (rows : list row) : option (list DrawingResponse) :=
  match rows with
  | [] => Some []
  | r :: rest =>
      match response_of_row r, responses rest with
      | Some d, Some drawings => Some (d :: drawings)
      | _, _ => None
      end
  end.

(** [GET /drawings] *)
Definition get_drawings (db : table) : outcome (list DrawingResponse) * table :=
  match responses (order_by_updated_at_desc db) with
  | Some drawings => (Ok drawings, db)
  | None => (HTTPException 500, db)
  end.

(** [GET /drawings/{drawing_id}] *)
Definition get_drawing (db : table) (drawing_id : string)
    : outcome DrawingResponse * table :=
  match select_by_id db drawing_id with
  | None => (HTTPException 404, db)
  | Some r =>
      match response_of_row r with
      | Some d => (Ok d, db)
      | None => (HTTPException 500, db)
      end
  end.

(** The assignments [update_drawing] collects from the fields that are
    not [None]. *)
Definition update_fields (drawing : DrawingUpdate) : list (column * string) :=
  (match update_name drawing with
   | Some v => [(col_name, v)]
   | None => []
   end) ++
  (match update_preview_image drawing with
   | Some v => [(col_preview_image, v)]
   | None => []
   end) ++
  (match update_canvas_state drawing with
   | Some v => [(col_canvas_state, dumps v)]
   | None => []
   end).

(** [PUT /drawings/{drawing_id}].  The handler commits before it builds
    the response, so the table keeps the update when the response cannot
    be built. *)
Definition update_drawing (db : table) (now : string) (drawing_id : string)
    (drawing : DrawingUpdate) : outcome DrawingResponse * table :=
  match select_by_id db drawing_id with
  | None => (HTTPException 404, db)
  | Some _ =>
      match update_fields drawing with
      | [] => (HTTPException 400, db)
      | fields =>
          let current_time := now in
          let db' := update_where_id db (fields ++ [(col_updated_at, current_time)]) drawing_id in
          match select_by_id db' drawing_id with
          | Some r =>
              match response_of_row r with
              | Some d => (Ok d, db')
              | None => (HTTPException 500, db')
              end
          | None => (HTTPException 500, db')
          end
      end
  end.

(** [DELETE /drawings/{drawing_id}]; [cursor.rowcount] is the number of
    rows the statement removed. *)
Definition delete_drawing (db : table) (drawing_id : string) : outcome string * table :=
  let db' := delete_where_id db drawing_id in
  let rowcount := List.length db - List.length db' in
  if Nat.eqb rowcount 0 then (HTTPException 404, db)
  else (Ok "Drawing deleted successfully", db').

(** *** The request body of [PUT]  *)





(** *** The update contract *)

(** The contract of Update in the words of the specification, on rows:
    each present field overwrites the stored one, [updated_at] becomes the
    current time, [id], [created_at] and the absent fields stay. *)
Definition merge (existing : row) (patch : DrawingUpdate) (now : string) : row :=
  {| id := id existing;
     name := match update_name patch with
             | Some v => v
             | None => name existing
             end;
     preview_image := match update_preview_image patch with
                      | Some v => v
                      | None => preview_image existing
                      end;
     canvas_state := match update_canvas_state patch with
                     | Some v => dumps v
                     | None => canvas_state existing
                     end;
     created_at := created_at existing;
     updated_at := now |}.


(** Whether a request names at least one field. *)
Definition some_field_present (patch : DrawingUpdate) : Prop :=
  update_name patch <> None \/ update_preview_image patch <> None
  \/ update_canvas_state patch <> None.

(** The table after [UPDATE], by the contract. *)
Definition merge_where_id (db : table) (drawing_id : string) (patch : DrawingUpdate)
    (now : string) : table :=
  map (fun r => if String.eqb (id r) drawing_id then merge r patch now else r) db.

(** *** Sample data *)

(** The document the specification gives as an example. *)
Definition sample_canvas : dict :=
  [("shapes",
    JArr [JObj [("type", JStr "circle"); ("r", JInt 5)];
          JObj [("type", JStr "line");
                ("points", JArr [JArr [JInt 0; JInt 0]; JArr [JInt 1; JInt 1]])]])].

Definition sample_drawing : DrawingCreate :=
  {| create_name := "sketch";
     create_preview_image := "iVBORw0KGgo=";
     create_canvas_state := sample_canvas |}.

Definition rename_to_X : DrawingUpdate :=
  {| update_name := Some "X";
     update_preview_image := None;
     update_canvas_state := None |}.

Definition no_fields : DrawingUpdate :=
  {| update_name := None;
     update_preview_image := None;
     update_canvas_state := None |}.

(** The identifier [uuid4] makes of the random bits [7]. *)
Definition sample_id : string := "00000000-0000-4000-8000-000000000007".

(** A table with one drawing in it. *)
Definition sample_db : table :=
  snd (create_drawing init_db 7 "2024-05-01T10:00:00.250000" sample_drawing).

(** A text written with apostrophes where it has double quotes. *)
Fixpoint requote (s : string) : string :=
  match s with
  | EmptyString => EmptyString
  | String c s' => String (if Ascii.eqb c "'" then quote else c) (requote s')
  end.

Definition unnamed_drawing : DrawingCreate :=
  {| create_name := "";
     create_preview_image := "iVBORw0KGgo=";
     create_canvas_state := sample_canvas |}.


(** *** Runs of the service *)

Inductive request : Type :=
| Create (random : N) (now : string) (drawing : DrawingCreate)
| List
| Get (drawing_id : string)
| Update (now : string) (drawing_id : string) (drawing : DrawingUpdate)
| Delete (drawing_id : string).

(** The table after a request. *)
Definition handle (db : table) (rq : request) : table :=
  match rq with
  | Create random now drawing => snd (create_drawing db random now drawing)
  | List => snd (get_drawings db)
  | Get drawing_id => snd (get_drawing db drawing_id)
  | Update now drawing_id drawing => snd (update_drawing db now drawing_id drawing)
  | Delete drawing_id => snd (delete_drawing db drawing_id)
  end.

Definition run (requests : list request) : table :=
  fold_left handle requests init_db.


(** The clock reading a request takes, if it takes one. *)
Definition reading (rq : request) : option string :=
  match rq with
  | Create _ now _ => Some now
  | Update now _ _ => Some now
  | _ => None
  end.

(** Whether no reading is below the one before it, [t] being the last
    reading before the requests. *)
Fixpoint clock_monotone (t : string) (requests : list request) : bool :=
  match requests with
  | [] => true
  | rq :: rest =>
      match reading rq with
      | Some t' => String.leb t t' && clock_monotone t' rest
      | None => clock_monotone t rest
      end
  end.

(** The last reading taken, [t] when the requests take none. *)
Definition last_reading (t : string) (requests : list request) : string :=
  fold_left (fun t rq => match reading rq with
                         | Some t' => t'
                         | None => t
                         end) requests t.

(** The row [create_drawing] inserts. *)
Definition created_row (random : N) (now : string) (drawing : DrawingCreate) : row :=
  Row (Uuid.str (Uuid.uuid4 random)) (create_name drawing) (create_preview_image drawing)
      (dumps (create_canvas_state drawing)) now now.





(** The names a request carries. *)
Definition names_nonempty (rq : request) : Prop :=
  match rq with
  | Create _ _ drawing => create_name drawing <> ""
  | Update _ _ drawing => update_name drawing <> Some ""
  | _ => True
  end.

(** *** Notions for the further properties *)







(** * Properties *)

(** ** The codec *)

Module PyJsonFacts.

Local Open Scope char_scope.
Local Open Scope list_scope.





Lemma stop_skip_ws (r : text) : stop r -> skip_ws r = r.
Proof.
  destruct r as [|c r]; simpl; [reflexivity|].
  intros [-> | [-> | ->]]; reflexivity.
Qed.



















Local Arguments join : simpl never.


Section LoopFacts.

Variable scan : text -> option (json * text).








End LoopFacts.













End PyJsonFacts.

(** ** The order of timestamps *)

Section TextOrder.

Lemma ascii_compare_eq (a b : ascii) : Ascii.compare a b = Eq -> a = b.
Proof. apply Ascii.compare_eq_iff. Qed.

Lemma ascii_compare_lt_trans (a b c : ascii) :
  Ascii.compare a b = Lt -> Ascii.compare b c = Lt -> Ascii.compare a c = Lt.
Proof.
  unfold Ascii.compare. rewrite !N.compare_lt_iff. lia.
Qed.

Lemma ascii_compare_refl (a : ascii) : Ascii.compare a a = Eq.
Proof. unfold Ascii.compare. apply N.compare_refl. Qed.

Lemma compare_refl (s : string) : String.compare s s = Eq.
Proof.
  induction s as [|c s IH]; simpl; [reflexivity|].
  rewrite ascii_compare_refl. exact IH.
Qed.

Lemma leb_refl (s : string) : String.leb s s = true.
Proof. unfold String.leb. rewrite compare_refl. reflexivity. Qed.

Lemma leb_empty (s : string) : String.leb "" s = true.
Proof. destruct s; reflexivity. Qed.

Lemma leb_trans (a b c : string) :
  String.leb a b = true -> String.leb b c = true -> String.leb a c = true.
Proof.
  unfold String.leb. revert b c.
  induction a as [|x a IH]; intros [|y b] [|z c]; simpl; try easy.
  destruct (Ascii.compare x y) eqn:E1; destruct (Ascii.compare y z) eqn:E2;
    try discriminate; intros H1 H2.
  - apply ascii_compare_eq in E1, E2. subst.
    rewrite ascii_compare_refl.
    exact (IH _ _ H1 H2).
  - apply ascii_compare_eq in E1. subst. rewrite E2. reflexivity.
  - apply ascii_compare_eq in E2. subst. rewrite E1. reflexivity.
  - rewrite (ascii_compare_lt_trans _ _ _ E1 E2). reflexivity.
Qed.



End TextOrder.

(** ** The table *)

Section TableFacts.

Lemma select_by_id_some (db : table) (i : string) (r : row) :
  select_by_id db i = Some r -> In r db /\ id r = i.
Proof.
  unfold select_by_id. intros H. apply find_some in H.
  destruct H as [Hin Heq]. apply String.eqb_eq in Heq. auto.
Qed.

Lemma select_by_id_none (db : table) (i : string) :
  select_by_id db i = None <-> ~ In i (map id db).
Proof.
  unfold select_by_id. induction db as [|r db IH]; simpl.
  - tauto.
  - destruct (String.eqb_spec (id r) i) as [E|E].
    + split; [discriminate | intros H; exfalso; apply H; auto].
    + rewrite IH. tauto.
Qed.

Lemma select_by_id_app (db : table) (r : row) (i : string) :
  select_by_id (db ++ [r]) i =
  match select_by_id db i with
  | Some x => Some x
  | None => if String.eqb (id r) i then Some r else None
  end.
Proof.
  unfold select_by_id. induction db as [|x db IH]; simpl.
  - reflexivity.
  - destruct (String.eqb (id x) i); [reflexivity | exact IH].
Qed.

(** An [UPDATE] that keeps the keys shows through [SELECT]. *)
Lemma select_by_id_map (f : row -> row) (db : table) (i : string) :
  (forall r, id (f r) = id r) ->
  select_by_id (map f db) i = option_map f (select_by_id db i).
Proof.
  intros Hf. unfold select_by_id. induction db as [|x db IH]; simpl.
  - reflexivity.
  - rewrite Hf. destruct (String.eqb (id x) i); [reflexivity | exact IH].
Qed.

Lemma select_by_id_delete (db : table) (i : string) :
  select_by_id (delete_where_id db i) i = None.
Proof.
  unfold select_by_id, delete_where_id. induction db as [|x db IH]; simpl.
  - reflexivity.
  - destruct (String.eqb (id x) i) eqn:E; simpl; [exact IH|].
    rewrite E. exact IH.
Qed.

Lemma delete_absent (db : table) (i : string) :
  select_by_id db i = None -> delete_where_id db i = db.
Proof.
  unfold select_by_id, delete_where_id. induction db as [|x db IH]; simpl.
  - reflexivity.
  - destruct (String.eqb (id x) i); [discriminate|].
    simpl. intros H. rewrite IH by exact H. reflexivity.
Qed.

Lemma delete_present (db : table) (i : string) (r : row) :
  select_by_id db i = Some r ->
  List.length (delete_where_id db i) < List.length db.
Proof.
  unfold select_by_id, delete_where_id. induction db as [|x db IH]; simpl.
  - discriminate.
  - pose proof (filter_length_le (fun r0 => negb (String.eqb (id r0) i)) db) as Hle.
    destruct (String.eqb (id x) i); simpl.
    + intros _. lia.
    + intros H. specialize (IH H). lia.
Qed.

End TableFacts.

(** ** The handlers *)

Section HandlerFacts.



(** The assignments of [update_drawing] amount to [merge]. *)
Lemma assign_fields (r : row) (drawing : DrawingUpdate) (now : string) :
  fold_left assign (update_fields drawing ++ [(col_updated_at, now)]) r
  = merge r drawing now.
Proof.
  destruct drawing as [[n|] [p|] [c|]]; reflexivity.
Qed.

Lemma update_where_id_merge (db : table) (drawing : DrawingUpdate) (now i : string) :
  update_where_id db (update_fields drawing ++ [(col_updated_at, now)]) i
  = merge_where_id db i drawing now.
Proof.
  unfold update_where_id, merge_where_id. apply map_ext.
  intros r. rewrite assign_fields. reflexivity.
Qed.

Lemma update_fields_present (drawing : DrawingUpdate) :
  some_field_present drawing <-> update_fields drawing <> [].
Proof.
  unfold some_field_present.
  destruct drawing as [[n|] [p|] [c|]]; simpl; split; intros H;
    try discriminate; try congruence; try tauto;
    try (left; discriminate); try (right; left; discriminate);
    try (right; right; discriminate).
Qed.

Lemma select_merge_where_id (db : table) (i j : string) (drawing : DrawingUpdate)
    (now : string) :
  select_by_id (merge_where_id db i drawing now) j =
  option_map (fun r => if String.eqb (id r) i then merge r drawing now else r)
             (select_by_id db j).
Proof.
  unfold merge_where_id. apply select_by_id_map.
  intros r. destruct (String.eqb (id r) i); reflexivity.
Qed.

(** [update_drawing] once the record exists and a field is present. *)
Lemma update_drawing_present (db : table) (now i : string) (drawing : DrawingUpdate)
    (r : row) :
  select_by_id db i = Some r -> some_field_present drawing ->
  update_drawing db now i drawing =
  match response_of_row (merge r drawing now) with
  | Some d => (Ok d, merge_where_id db i drawing now)
  | None => (HTTPException 500, merge_where_id db i drawing now)
  end.
Proof.
  intros Hsel Hpres. unfold update_drawing. rewrite Hsel.
  apply update_fields_present in Hpres.
  destruct (update_fields drawing) as [|f fields] eqn:E; [congruence|].
  rewrite <- E, update_where_id_merge.
  rewrite select_merge_where_id, Hsel. simpl.
  apply select_by_id_some in Hsel. destruct Hsel as [_ Hid].
  rewrite Hid, String.eqb_refl. reflexivity.
Qed.


Lemma get_drawing_ok (db db' : table) (i : string) (d : DrawingResponse) :
  get_drawing db i = (Ok d, db') ->
  exists r, select_by_id db i = Some r /\ response_of_row r = Some d.
Proof.
  unfold get_drawing. destruct (select_by_id db i) as [r|]; [|discriminate].
  destruct (response_of_row r) as [d'|] eqn:E; [|discriminate].
  intros H. injection H as <- _. exists r. auto.
Qed.

Lemma create_drawing_ok (db db' : table) (random : N) (now : string)
    (drawing : DrawingCreate) (created : DrawingResponse) :
  create_drawing db random now drawing = (Ok created, db') ->
  let r := Row (Uuid.str (Uuid.uuid4 random)) (create_name drawing)
               (create_preview_image drawing) (dumps (create_canvas_state drawing))
               now now in
  select_by_id db (id r) = None /\ db' = db ++ [r] /\
  created = {| response_id := id r;
               response_name := create_name drawing;
               response_preview_image := create_preview_image drawing;
               response_canvas_state := create_canvas_state drawing;
               response_created_at := now;
               response_updated_at := now |}.
Proof.
  unfold create_drawing, insert. simpl.
  destruct (select_by_id db (Uuid.str (Uuid.uuid4 random))); [discriminate|].
  intros H. injection H as <- <-. auto.
Qed.

End HandlerFacts.

(** ** The claims *)






(** C3. On an existing record, an Update with no field present is refused
    with status 400 and the table, the record with its [updated_at]
    included, stays as it was. *)
Theorem update_without_fields_rejected (db : table) (now drawing_id : string)
    (drawing : DrawingUpdate) (r : row) :
  select_by_id db drawing_id = Some r ->
  update_name drawing = None ->
  update_preview_image drawing = None ->
  update_canvas_state drawing = None ->
  update_drawing db now drawing_id drawing = (HTTPException 400, db) /\
  select_by_id (snd (update_drawing db now drawing_id drawing)) drawing_id = Some r.
Proof.
  intros Hsel Hn Hp Hc.
  assert (H : update_drawing db now drawing_id drawing = (HTTPException 400, db)).
  { unfold update_drawing, update_fields. rewrite Hsel, Hn, Hp, Hc. reflexivity. }
  rewrite H. split; [reflexivity | exact Hsel].
Qed.

Lemma update_without_fields_rejected_witness :
  update_drawing sample_db "2024-05-01T10:05:00" sample_id no_fields
  = (HTTPException 400, sample_db).
Proof.
  refine (proj1 (@update_without_fields_rejected sample_db "2024-05-01T10:05:00"
                   sample_id no_fields _ _ _ _ _));
    [vm_compute; reflexivity | reflexivity ..].
Defined.

(** C4. For an id with no stored record Get, Update and Delete each fail
    with status 404; Delete of a stored record succeeds, and right after
    it Get and a second Delete of the same id fail with status 404. *)
Theorem absent_id_not_found (db : table) (drawing_id : string) :
  (select_by_id db drawing_id = None ->
   get_drawing db drawing_id = (HTTPException 404, db) /\
   (forall now drawing,
       update_drawing db now drawing_id drawing = (HTTPException 404, db)) /\
   delete_drawing db drawing_id = (HTTPException 404, db)) /\
  (forall r, select_by_id db drawing_id = Some r ->
   exists message,
     delete_drawing db drawing_id = (Ok message, delete_where_id db drawing_id)) /\
  (forall message db',
      delete_drawing db drawing_id = (Ok message, db') ->
      get_drawing db' drawing_id = (HTTPException 404, db') /\
      delete_drawing db' drawing_id = (HTTPException 404, db')).
Proof.
  assert (Habsent : forall t, select_by_id t drawing_id = None ->
            get_drawing t drawing_id = (HTTPException 404, t) /\
            (forall now drawing,
                update_drawing t now drawing_id drawing = (HTTPException 404, t)) /\
            delete_drawing t drawing_id = (HTTPException 404, t)).
  { intros t Hnone. split; [|split].
    - unfold get_drawing. rewrite Hnone. reflexivity.
    - intros now drawing. unfold update_drawing. rewrite Hnone. reflexivity.
    - unfold delete_drawing. rewrite (delete_absent _ _ Hnone), Nat.sub_diag.
      reflexivity. }
  split; [exact (Habsent db)|]. split.
  - intros r Hsel. unfold delete_drawing.
    pose proof (delete_present _ _ Hsel) as Hlt.
    destruct (Nat.eqb_spec (List.length db - List.length (delete_where_id db drawing_id)) 0)
      as [E|_]; [lia|].
    eexists. reflexivity.
  - intros message db' Hdel. unfold delete_drawing in Hdel.
    destruct (Nat.eqb (List.length db - List.length (delete_where_id db drawing_id)) 0);
      [discriminate|].
    injection Hdel as _ <-.
    pose proof (Habsent _ (select_by_id_delete db drawing_id)) as (Hg & _ & Hd).
    split; assumption.
Qed.

Lemma absent_id_not_found_witness :
  get_drawing init_db sample_id = (HTTPException 404, init_db) /\
  get_drawing (snd (delete_drawing sample_db sample_id)) sample_id
  = (HTTPException 404, init_db).
Proof.
  split.
  - exact (proj1 (proj1 (absent_id_not_found init_db sample_id) eq_refl)).
  - exact (proj1 (proj2 (proj2 (absent_id_not_found sample_db sample_id))
                    "Drawing deleted successfully" init_db eq_refl)).
Defined.

(** ** Runs *)

Section RunFacts.

Lemma update_drawing_table (db : table) (now i : string) (drawing : DrawingUpdate) :
  snd (update_drawing db now i drawing) = db \/
  snd (update_drawing db now i drawing) = merge_where_id db i drawing now.
Proof.
  unfold update_drawing.
  destruct (select_by_id db i) as [r|]; [|left; reflexivity].
  destruct (update_fields drawing) as [|f fields] eqn:E; [left; reflexivity|].
  right. rewrite <- E, update_where_id_merge.
  destruct (select_by_id (merge_where_id db i drawing now) i) as [x|];
    [destruct (response_of_row x)|]; reflexivity.
Qed.

Lemma create_drawing_table (db : table) (random : N) (now : string)
    (drawing : DrawingCreate) :
  snd (create_drawing db random now drawing) = db \/
  snd (create_drawing db random now drawing) = db ++ [created_row random now drawing].
Proof.
  unfold create_drawing, insert, created_row. simpl.
  destruct (select_by_id db (Uuid.str (Uuid.uuid4 random)));
    [left | right]; reflexivity.
Qed.

Lemma delete_drawing_table (db : table) (i : string) :
  snd (delete_drawing db i) = db \/ snd (delete_drawing db i) = delete_where_id db i.
Proof.
  unfold delete_drawing.
  destruct (Nat.eqb (List.length db - List.length (delete_where_id db i)) 0);
    [left | right]; reflexivity.
Qed.

Lemma get_drawings_table (db : table) : snd (get_drawings db) = db.
Proof. unfold get_drawings. destruct (responses _); reflexivity. Qed.

Lemma get_drawing_table (db : table) (i : string) : snd (get_drawing db i) = db.
Proof.
  unfold get_drawing. destruct (select_by_id db i) as [r|]; [|reflexivity].
  destruct (response_of_row r); reflexivity.
Qed.

(** A property of rows that the inserted row has and [merge] keeps holds
    of every row after the request. *)
Lemma handle_invariant (P : row -> Prop) (db : table) (rq : request) :
  Forall P db ->
  (forall random now drawing,
      rq = Create random now drawing -> P (created_row random now drawing)) ->
  (forall now i drawing r,
      rq = Update now i drawing -> P r -> P (merge r drawing now)) ->
  Forall P (handle db rq).
Proof.
  intros Hdb Hcreate Hupdate. destruct rq as [random now drawing| |i|now i drawing|i]; simpl.
  - destruct (create_drawing_table db random now drawing) as [-> | ->]; [exact Hdb|].
    apply Forall_app. split; [exact Hdb|]. constructor; [|constructor].
    apply Hcreate. reflexivity.
  - rewrite get_drawings_table. exact Hdb.
  - rewrite get_drawing_table. exact Hdb.
  - destruct (update_drawing_table db now i drawing) as [-> | ->]; [exact Hdb|].
    unfold merge_where_id. apply Forall_map.
    eapply Forall_impl; [|exact Hdb]. intros r Hr.
    destruct (String.eqb (id r) i); [|exact Hr].
    eapply Hupdate; [reflexivity | exact Hr].
  - destruct (delete_drawing_table db i) as [-> | ->]; [exact Hdb|].
    unfold delete_where_id. apply Forall_forall. intros r Hr.
    apply filter_In in Hr. rewrite Forall_forall in Hdb. apply Hdb, Hr.
Qed.

(** The same over a run, for a property that does not depend on the
    request. *)
Lemma run_invariant (P : row -> Prop) (Q : request -> Prop) (requests : list request) :
  (forall random now drawing,
      Q (Create random now drawing) -> P (created_row random now drawing)) ->
  (forall now i drawing r,
      Q (Update now i drawing) -> P r -> P (merge r drawing now)) ->
  Forall Q requests ->
  forall db, Forall P db -> Forall P (fold_left handle requests db).
Proof.
  intros Hcreate Hupdate Hq.
  induction Hq as [|rq requests Hrq _ IH]; intros db Hdb; simpl; [exact Hdb|].
  apply IH. apply handle_invariant; [exact Hdb | | ].
  - intros random now drawing ->. apply Hcreate, Hrq.
  - intros now i drawing r -> Hr. exact (Hupdate now i drawing r Hrq Hr).
Qed.

(** Every row is between its creation and the last reading of a clock
    that never steps back. *)
Lemma run_clock (requests : list request) :
  forall db t,
    Forall (fun r => String.leb (created_at r) (updated_at r) = true
                     /\ String.leb (updated_at r) t = true) db ->
    clock_monotone t requests = true ->
    Forall (fun r => String.leb (created_at r) (updated_at r) = true
                     /\ String.leb (updated_at r) (last_reading t requests) = true)
           (fold_left handle requests db).
Proof.
  induction requests as [|rq requests IH]; intros db t Hdb Hmono; [exact Hdb|].
  simpl in Hmono. unfold last_reading. simpl fold_left.
  destruct (reading rq) as [t'|] eqn:Hread.
  - apply andb_true_iff in Hmono. destruct Hmono as [Hle Hmono].
    apply IH; [|exact Hmono].
    apply handle_invariant.
    + eapply Forall_impl; [|exact Hdb]. intros r [H1 H2].
      split; [exact H1 | exact (leb_trans _ _ _ H2 Hle)].
    + intros random now drawing ->. simpl in Hread. injection Hread as ->.
      simpl. split; apply leb_refl.
    + intros now i drawing r -> [H1 H2]. simpl in Hread. injection Hread as ->.
      simpl. split; [|apply leb_refl].
      exact (leb_trans _ _ _ H1 H2).
  - apply IH; [|exact Hmono].
    apply handle_invariant; [exact Hdb | |].
    + intros random now drawing ->. discriminate Hread.
    + intros now i drawing r ->. discriminate Hread.
Qed.

End RunFacts.

(** ** Reading the table back *)

Section ReadFacts.

Lemma response_of_row_fields (r : row) (d : DrawingResponse) :
  response_of_row r = Some d ->
  response_id d = id r /\ response_name d = name r /\
  response_preview_image d = preview_image r /\
  response_created_at d = created_at r /\ response_updated_at d = updated_at r.
Proof.
  unfold response_of_row.
  destruct (loads (canvas_state r)) as [[ | | | | | doc]|]; try discriminate.
  intros H. injection H as <-. simpl. auto.
Qed.






Lemma responses_map (rows : list row) (drawings : list DrawingResponse) :
  responses rows = Some drawings -> map Some drawings = map response_of_row rows.
Proof.
  revert drawings. induction rows as [|r rows IH]; simpl; intros drawings H.
  - injection H as <-. reflexivity.
  - destruct (response_of_row r) as [d|]; [|discriminate].
    destruct (responses rows) as [l|]; [|discriminate].
    injection H as <-. simpl. rewrite (IH l eq_refl). reflexivity.
Qed.

Lemma insert_desc_perm (r : row) (l : list row) : Permutation (insert_desc r l) (r :: l).
Proof.
  induction l as [|x l IH]; simpl; [reflexivity|].
  destruct (String.ltb (updated_at r) (updated_at x)); [|reflexivity].
  rewrite IH. apply perm_swap.
Qed.

Lemma order_by_perm (db : table) : Permutation (order_by_updated_at_desc db) db.
Proof.
  induction db as [|r db IH]; simpl; [reflexivity|].
  rewrite insert_desc_perm. apply perm_skip, IH.
Qed.






End ReadFacts.

(** ** The claims, continued *)

(** C5, as the code has it. Provided no clock reading is below the one
    before it, every stored record has [created_at] at most [updated_at],
    itself at most the last reading: Create sets both to the current
    time, and a successful Update at a time not below the last reading
    keeps [created_at] and moves [updated_at] to that time, never back. *)
Theorem timestamps_ordered_when_clock_never_steps_back (requests : list request) :
  clock_monotone "" requests = true ->
  let db := run requests in
  let t := last_reading "" requests in
  Forall (fun r => String.leb (created_at r) (updated_at r) = true
                   /\ String.leb (updated_at r) t = true) db /\
  (forall random now drawing created db',
      create_drawing db random now drawing = (Ok created, db') ->
      response_created_at created = now /\ response_updated_at created = now) /\
  (forall now i drawing before after db',
      String.leb t now = true ->
      get_drawing db i = (Ok before, db) ->
      update_drawing db now i drawing = (Ok after, db') ->
      response_created_at after = response_created_at before /\
      response_updated_at after = now /\
      String.leb (response_updated_at before) (response_updated_at after) = true).
Proof.
  intros Hmono db t.
  assert (Hinv : Forall (fun r => String.leb (created_at r) (updated_at r) = true
                                  /\ String.leb (updated_at r) t = true) db).
  { apply (@run_clock requests init_db ""); [constructor | exact Hmono]. }
  split; [exact Hinv|]. split.
  - intros random now drawing created db' Hc.
    apply create_drawing_ok in Hc. destruct Hc as (_ & _ & ->). simpl. auto.
  - intros now i drawing before after db' Hnow Hget Hupd.
    destruct (get_drawing_ok _ _ Hget) as (r & Hsel & Hresp).
    assert (Hpres : some_field_present drawing).
    { apply update_fields_present. intros E.
      unfold update_drawing in Hupd. rewrite Hsel, E in Hupd. discriminate. }
    rewrite (@update_drawing_present db now i drawing r Hsel Hpres) in Hupd.
    destruct (response_of_row (merge r drawing now)) as [d|] eqn:Hd; [|discriminate].
    injection Hupd as -> _.
    apply response_of_row_fields in Hd, Hresp.
    destruct Hd as (_ & _ & _ & Hc & Hu). destruct Hresp as (_ & _ & _ & Hc' & Hu').
    simpl in Hc, Hu. rewrite Hc, Hu, Hc', Hu'.
    split; [reflexivity|]. split; [reflexivity|].
    apply select_by_id_some in Hsel. destruct Hsel as [Hin _].
    rewrite Forall_forall in Hinv. destruct (Hinv r Hin) as [_ Hle].
    exact (leb_trans _ _ _ Hle Hnow).
Qed.

Lemma timestamps_ordered_when_clock_never_steps_back_witness :
  Forall (fun r => String.leb (created_at r) (updated_at r) = true
                   /\ String.leb (updated_at r) "2024-05-01T10:05:00" = true)
         (run [Create 7 "2024-05-01T10:00:00.250000" sample_drawing;
               Update "2024-05-01T10:05:00" sample_id rename_to_X]).
Proof.
  exact (proj1 (timestamps_ordered_when_clock_never_steps_back
                  [Create 7 "2024-05-01T10:00:00.250000" sample_drawing;
                   Update "2024-05-01T10:05:00" sample_id rename_to_X] eq_refl)).
Defined.

(** C5, as stated, fails: [datetime.now()] is local wall-clock time, and
    when it steps back between a Create and an Update (here the hour that
    repeats at the end of daylight saving time) the record is left with
    [created_at] above [updated_at]. *)
Lemma timestamps_unordered_when_clock_steps_back :
  map (fun r => (created_at r, updated_at r, String.leb (created_at r) (updated_at r)))
      (run [Create 7 "2024-11-03T01:30:00" sample_drawing;
            Update "2024-11-03T01:10:00" sample_id rename_to_X])
  = [("2024-11-03T01:30:00", "2024-11-03T01:10:00", false)].
Proof. vm_compute. reflexivity. Qed.

(** C7, as the code has it. The service stores the names it is given: when
    every name supplied to Create and to Update is non-empty, every stored
    record has a non-empty name. *)
Theorem names_nonempty_when_supplied_nonempty (requests : list request) :
  Forall names_nonempty requests ->
  Forall (fun r => name r <> "") (run requests).
Proof.
  intros Hq. unfold run.
  apply (@run_invariant (fun r => name r <> "") names_nonempty requests);
    [ | | exact Hq | constructor].
  - intros random now drawing H. exact H.
  - intros now i drawing r H Hr. simpl in *.
    destruct (update_name drawing) as [v|]; [congruence | exact Hr].
Qed.

Lemma names_nonempty_when_supplied_nonempty_witness :
  Forall (fun r => name r <> "")
         (run [Create 7 "2024-05-01T10:00:00.250000" sample_drawing;
               Update "2024-05-01T10:05:00" sample_id rename_to_X]).
Proof.
  apply names_nonempty_when_supplied_nonempty.
  repeat constructor; simpl; discriminate.
Defined.

(** C7, as stated, fails: neither model validates the name, and a Create
    with the empty name stores it. *)
Lemma empty_name_is_stored :
  fst (create_drawing init_db 7 "2024-05-01T10:00:00.250000" unnamed_drawing)
  = Ok {| response_id := sample_id;
          response_name := "";
          response_preview_image := "iVBORw0KGgo=";
          response_canvas_state := sample_canvas;
          response_created_at := "2024-05-01T10:00:00.250000";
          response_updated_at := "2024-05-01T10:00:00.250000" |}
  /\ map name (run [Create 7 "2024-05-01T10:00:00.250000" unnamed_drawing]) = [""].
Proof. split; vm_compute; reflexivity. Qed.









(** ** The examples of the specification *)

(** The example document goes through the column unchanged. *)
Example sample_canvas_round_trip :
  dumps sample_canvas
  = requote "{'shapes': [{'type': 'circle', 'r': 5}, {'type': 'line', 'points': [[0, 0], [1, 1]]}]}"
  /\ loads (dumps sample_canvas) = Some (JObj sample_canvas).
Proof. split; vm_compute; reflexivity. Qed.

(** After two creates, updating the older record puts it first. *)
Example updated_oldest_comes_first :
  match fst (get_drawings
               (run [Create 7 "2024-05-01T10:00:00.250000" sample_drawing;
                     Create 8 "2024-05-01T10:00:01" sample_drawing;
                     Update "2024-05-01T10:05:00" sample_id rename_to_X])) with
  | Ok drawings => map response_id drawings
  | HTTPException _ => []
  end = [sample_id; "00000000-0000-4000-8000-000000000008"].
Proof. vm_compute. reflexivity. Qed.

(** Deleting twice: the first call succeeds, the second finds nothing. *)
Example delete_twice :
  fst (delete_drawing sample_db sample_id) = Ok "Drawing deleted successfully"
  /\ fst (delete_drawing (snd (delete_drawing sample_db sample_id)) sample_id)
     = HTTPException 404.
Proof. split; vm_compute; reflexivity. Qed.

(** A Create that draws the bits of a stored id is refused by the primary
    key and returns no record. *)
Example repeated_draw_is_refused :
  create_drawing sample_db 7 "2024-05-01T10:00:01" sample_drawing
  = (HTTPException 500, sample_db).
Proof. vm_compute. reflexivity. Qed.

(** * Further properties of the handlers *)

Section KeyFacts.

Lemma select_by_id_delete_other (db : table) (i j : string) :
  j <> i -> select_by_id (delete_where_id db i) j = select_by_id db j.
Proof.
  intros Hji. unfold select_by_id, delete_where_id.
  induction db as [|x db IH]; simpl; [reflexivity|].
  destruct (String.eqb_spec (id x) i) as [Ei|Ei]; simpl.
  - destruct (String.eqb_spec (id x) j) as [Ej|_]; [congruence | exact IH].
  - destruct (String.eqb (id x) j); [reflexivity | exact IH].
Qed.

Lemma merge_where_id_ids (db : table) (i : string) (drawing : DrawingUpdate)
    (now : string) :
  map (fun r => (id r, created_at r)) (merge_where_id db i drawing now)
  = map (fun r => (id r, created_at r)) db.
Proof.
  unfold merge_where_id. rewrite map_map. apply map_ext.
  intros r. destruct (String.eqb (id r) i); reflexivity.
Qed.

Lemma map_id_of_pairs (db : table) :
  map id db = map fst (map (fun r => (id r, created_at r)) db).
Proof. rewrite map_map. reflexivity. Qed.

Lemma nodup_ids_filter (f : row -> bool) (db : table) :
  NoDup (map id db) -> NoDup (map id (filter f db)).
Proof.
  induction db as [|x db IH]; simpl; intros H; [constructor|].
  inversion H as [|? ? Hx Hdb]; subst.
  destruct (f x); [|exact (IH Hdb)].
  simpl. constructor; [|exact (IH Hdb)].
  intros Hin. apply Hx. apply in_map_iff in Hin.
  destruct Hin as (y & Ey & Hy). apply filter_In in Hy.
  apply in_map_iff. exists y. tauto.
Qed.

Lemma nodup_ids_handle (db : table) (rq : request) :
  NoDup (map id db) -> NoDup (map id (handle db rq)).
Proof.
  intros Hdb. destruct rq as [random now drawing| |i|now i drawing|i]; simpl.
  - unfold create_drawing, insert. cbn [id].
    destruct (select_by_id db (Uuid.str (Uuid.uuid4 random))) eqn:Hsel;
      cbn [snd]; [exact Hdb|].
    rewrite map_app. cbn [map id].
    apply select_by_id_none in Hsel.
    apply NoDup_app; [exact Hdb | repeat constructor; intros [] | ].
    intros a Ha [<- | []]. exact (Hsel Ha).
  - rewrite get_drawings_table. exact Hdb.
  - rewrite get_drawing_table. exact Hdb.
  - destruct (update_drawing_table db now i drawing) as [-> | ->]; [exact Hdb|].
    rewrite map_id_of_pairs, merge_where_id_ids, <- map_id_of_pairs. exact Hdb.
  - destruct (delete_drawing_table db i) as [-> | ->]; [exact Hdb|].
    apply nodup_ids_filter, Hdb.
Qed.

Lemma nodup_ids_fold (requests : list request) :
  forall db, NoDup (map id db) -> NoDup (map id (fold_left handle requests db)).
Proof.
  induction requests as [|rq requests IH]; intros db Hdb; simpl; [exact Hdb|].
  apply IH, nodup_ids_handle, Hdb.
Qed.

Lemma nodup_ids_same (db : table) (a b : row) :
  NoDup (map id db) -> In a db -> In b db -> id a = id b -> a = b.
Proof.
  induction db as [|x db IH]; simpl; intros Hnd Ha Hb E; [contradiction|].
  inversion Hnd as [|? ? Hx Hdb]; subst.
  destruct Ha as [<- | Ha], Hb as [<- | Hb].
  - reflexivity.
  - exfalso. apply Hx. rewrite E. apply in_map, Hb.
  - exfalso. apply Hx. rewrite <- E. apply in_map, Ha.
  - exact (IH Hdb Ha Hb E).
Qed.

Lemma select_by_id_in (db : table) (r : row) :
  NoDup (map id db) -> In r db -> select_by_id db (id r) = Some r.
Proof.
  intros Hnd Hin.
  destruct (select_by_id db (id r)) as [x|] eqn:Hsel.
  - apply select_by_id_some in Hsel. destruct Hsel as [Hx E].
    rewrite (@nodup_ids_same db x r Hnd Hx Hin E). reflexivity.
  - apply select_by_id_none in Hsel. exfalso. apply Hsel, in_map, Hin.
Qed.

End KeyFacts.

(** X1. The ids of the stored records are pairwise distinct after every
    run: [INSERT] refuses a key that is present, [UPDATE] keeps the keys
    and [DELETE] only removes rows. *)
Theorem ids_unique (requests : list request) : NoDup (map id (run requests)).
Proof.
  unfold run. apply nodup_ids_fold.
  unfold init_db. simpl. constructor.
Qed.

(** X2. Whatever its outcome, an Update keeps the number of rows, their
    order, their ids and their [created_at]. *)
Theorem update_keeps_ids_and_creation (db : table) (now i : string)
    (drawing : DrawingUpdate) :
  map (fun r => (id r, created_at r)) (snd (update_drawing db now i drawing))
  = map (fun r => (id r, created_at r)) db.
Proof.
  destruct (update_drawing_table db now i drawing) as [-> | ->];
    [reflexivity | apply merge_where_id_ids].
Qed.

(** X3. One request changes a stored record in one way only: an Update on
    its id, which turns it into [merge] of the record and the request. A
    record found under an id before and after any request is the same
    record otherwise, and in both cases keeps its id and [created_at]. *)
Theorem record_changes_only_by_update (db : table) (rq : request) (i : string)
    (r r' : row) :
  select_by_id db i = Some r ->
  select_by_id (handle db rq) i = Some r' ->
  (r' = r \/ exists now drawing, rq = Update now i drawing /\ r' = merge r drawing now)
  /\ id r' = id r /\ created_at r' = created_at r.
Proof.
  intros Hsel Hsel'.
  assert (H : r' = r \/ exists now drawing,
                 rq = Update now i drawing /\ r' = merge r drawing now).
  { destruct rq as [random now drawing| |j|now j drawing|j]; simpl in Hsel'.
    - destruct (create_drawing_table db random now drawing) as [E | E];
        rewrite E in Hsel'.
      + left. congruence.
      + rewrite select_by_id_app, Hsel in Hsel'. left. congruence.
    - rewrite get_drawings_table in Hsel'. left. congruence.
    - rewrite get_drawing_table in Hsel'. left. congruence.
    - destruct (update_drawing_table db now j drawing) as [E | E];
        rewrite E in Hsel'.
      + left. congruence.
      + rewrite select_merge_where_id, Hsel in Hsel'. simpl in Hsel'.
        pose proof (select_by_id_some _ _ Hsel) as [_ Hid].
        destruct (String.eqb_spec (id r) j) as [Ej|_].
        * right. exists now, drawing. split; [congruence | congruence].
        * left. congruence.
    - destruct (delete_drawing_table db j) as [E | E]; rewrite E in Hsel'.
      + left. congruence.
      + destruct (String.eqb_spec i j) as [->|Hij].
        * rewrite select_by_id_delete in Hsel'. discriminate.
        * rewrite (@select_by_id_delete_other db j i Hij) in Hsel'. left. congruence. }
  split; [exact H|].
  destruct H as [-> | (now & drawing & _ & ->)]; split; reflexivity.
Qed.

Lemma record_changes_only_by_update_witness :
  select_by_id (handle sample_db (Update "2024-05-01T10:05:00" sample_id rename_to_X))
               sample_id
  = Some (merge (created_row 7 "2024-05-01T10:00:00.250000" sample_drawing)
                rename_to_X "2024-05-01T10:05:00")
  /\ created_at (merge (created_row 7 "2024-05-01T10:00:00.250000" sample_drawing)
                       rename_to_X "2024-05-01T10:05:00")
     = "2024-05-01T10:00:00.250000".
Proof.
  assert (H : select_by_id (handle sample_db
                              (Update "2024-05-01T10:05:00" sample_id rename_to_X))
                           sample_id
              = Some (merge (created_row 7 "2024-05-01T10:00:00.250000" sample_drawing)
                            rename_to_X "2024-05-01T10:05:00"))
    by (vm_compute; reflexivity).
  split; [exact H|].
  exact (proj2 (proj2 (@record_changes_only_by_update sample_db
                         (Update "2024-05-01T10:05:00" sample_id rename_to_X)
                         sample_id _ _ eq_refl H))).
Defined.

Section EffectFacts.

Lemma delete_where_id_app_fresh (db : table) (r : row) :
  select_by_id db (id r) = None -> delete_where_id (db ++ [r]) (id r) = db.
Proof.
  intros Hnone. unfold delete_where_id. rewrite filter_app. cbn [filter].
  rewrite String.eqb_refl. cbn [negb].
  fold (delete_where_id db (id r)).
  rewrite (delete_absent _ _ Hnone). apply List.app_nil_r.
Qed.

Lemma delete_where_id_single (db : table) (i : string) (r : row) :
  NoDup (map id db) -> select_by_id db i = Some r ->
  S (List.length (delete_where_id db i)) = List.length db.
Proof.
  unfold select_by_id, delete_where_id.
  induction db as [|x db IH]; simpl; intros Hnd Hsel; [discriminate|].
  inversion Hnd as [|? ? Hx Hdb]; subst.
  destruct (String.eqb_spec (id x) i) as [E|E]; simpl.
  - f_equal. fold (delete_where_id db i). rewrite delete_absent; [reflexivity|].
    apply select_by_id_none. rewrite <- E. exact Hx.
  - f_equal. exact (IH Hdb Hsel).
Qed.


End EffectFacts.

(** X4. Create is refused, with status 500 and the table as it was,
    exactly when the id it draws is stored already; otherwise it appends
    one row and answers with the record. *)
Theorem create_refused_iff_id_stored (db : table) (random : N) (now : string)
    (drawing : DrawingCreate) :
  (fst (create_drawing db random now drawing) = HTTPException 500
   <-> select_by_id db (Uuid.str (Uuid.uuid4 random)) <> None) /\
  (fst (create_drawing db random now drawing) = HTTPException 500 ->
   snd (create_drawing db random now drawing) = db) /\
  (select_by_id db (Uuid.str (Uuid.uuid4 random)) = None ->
   exists created,
     create_drawing db random now drawing
     = (Ok created, db ++ [created_row random now drawing])).
Proof.
  unfold create_drawing, insert, created_row. cbn [id].
  destruct (select_by_id db (Uuid.str (Uuid.uuid4 random))) as [r|]; cbn [fst snd].
  - split; [|split].
    + split; [discriminate | reflexivity].
    + reflexivity.
    + discriminate.
  - split; [|split].
    + split; [discriminate | intros H; contradiction H; reflexivity].
    + discriminate.
    + intros _. eexists. reflexivity.
Qed.

(** X5. A Create that succeeds adds one row and leaves every record that
    was stored as it was: under any other id SELECT finds what it found
    before and Get answers as before. *)
Theorem create_leaves_others (db db' : table) (random : N) (now : string)
    (drawing : DrawingCreate) (created : DrawingResponse) :
  create_drawing db random now drawing = (Ok created, db') ->
  List.length db' = S (List.length db) /\
  forall j, j <> response_id created ->
    select_by_id db' j = select_by_id db j /\
    get_drawing db' j = (fst (get_drawing db j), db').
Proof.
  intros Hc. apply create_drawing_ok in Hc. cbn [id] in Hc.
  destruct Hc as (_ & -> & ->). cbn [response_id].
  split; [rewrite length_app; simpl; lia|].
  intros j Hj.
  assert (Hsel : select_by_id
                   (db ++ [Row (Uuid.str (Uuid.uuid4 random)) (create_name drawing)
                               (create_preview_image drawing)
                               (dumps (create_canvas_state drawing)) now now]) j
                 = select_by_id db j).
  { rewrite select_by_id_app. cbn [id].
    destruct (select_by_id db j); [reflexivity|].
    destruct (String.eqb_spec (Uuid.str (Uuid.uuid4 random)) j); [congruence | reflexivity]. }
  split; [exact Hsel|].
  unfold get_drawing. rewrite Hsel.
  destruct (select_by_id db j) as [r|]; [|reflexivity].
  destruct (response_of_row r); reflexivity.
Qed.

Lemma create_leaves_others_witness :
  select_by_id (snd (create_drawing sample_db 8 "2024-05-01T10:00:01" sample_drawing))
               sample_id
  = select_by_id sample_db sample_id.
Proof.
  refine (proj1 (proj2 (@create_leaves_others sample_db _ 8 "2024-05-01T10:00:01"
                          sample_drawing _ eq_refl) sample_id _)).
  cbn [response_id]. intros H. vm_compute in H. discriminate H.
Defined.

(** X6. Deleting the record a Create has just made gives back the table
    from before the Create. *)
Theorem create_then_delete (db db' : table) (random : N) (now : string)
    (drawing : DrawingCreate) (created : DrawingResponse) :
  create_drawing db random now drawing = (Ok created, db') ->
  delete_drawing db' (response_id created) = (Ok "Drawing deleted successfully", db).
Proof.
  intros Hc. apply create_drawing_ok in Hc. cbn [id] in Hc.
  destruct Hc as (Hnone & -> & ->). cbn [response_id].
  unfold delete_drawing.
  pose proof (@delete_where_id_app_fresh db
                (Row (Uuid.str (Uuid.uuid4 random)) (create_name drawing)
                     (create_preview_image drawing)
                     (dumps (create_canvas_state drawing)) now now) Hnone) as Hdel.
  cbn [id] in Hdel. rewrite Hdel, length_app. cbn [List.length].
  replace (List.length db + 1 - List.length db) with 1 by lia.
  reflexivity.
Qed.

Lemma create_then_delete_witness :
  delete_drawing sample_db sample_id = (Ok "Drawing deleted successfully", init_db).
Proof.
  exact (@create_then_delete init_db sample_db 7 "2024-05-01T10:00:00.250000"
           sample_drawing _ eq_refl).
Defined.

(** X7. A Delete that succeeds removes the rows of that id and nothing
    else: the rows left were there before, SELECT under any other id finds
    what it found before, and where the ids are distinct, as after every
    run, exactly one row goes. *)
Theorem delete_leaves_others (db db' : table) (i : string) (message : string) :
  delete_drawing db i = (Ok message, db') ->
  (forall r, In r db' -> In r db /\ id r <> i) /\
  (forall j, j <> i -> select_by_id db' j = select_by_id db j) /\
  (NoDup (map id db) -> S (List.length db') = List.length db).
Proof.
  unfold delete_drawing.
  destruct (Nat.eqb_spec (List.length db - List.length (delete_where_id db i)) 0)
    as [E|E]; [discriminate|].
  intros H. injection H as _ <-.
  split; [|split].
  - intros r Hr. unfold delete_where_id in Hr. apply filter_In in Hr.
    destruct Hr as [Hin Hne]. split; [exact Hin|].
    destruct (String.eqb_spec (id r) i); [discriminate | assumption].
  - intros j Hj. apply select_by_id_delete_other, Hj.
  - intros Hnd. destruct (select_by_id db i) as [r|] eqn:Hsel.
    + exact (@delete_where_id_single db i r Hnd Hsel).
    + rewrite (delete_absent _ _ Hsel) in E. lia.
Qed.

Lemma delete_leaves_others_witness :
  select_by_id (snd (delete_drawing sample_db sample_id))
               "00000000-0000-4000-8000-000000000008"
  = select_by_id sample_db "00000000-0000-4000-8000-000000000008".
Proof.
  refine (proj1 (proj2 (@delete_leaves_others sample_db _ sample_id _ eq_refl)) _ _).
  intros H. discriminate H.
Defined.

(** X8. Update answers 404 exactly when no record has the id, and 400
    exactly when one has and the request names no field; in both cases
    the table stays as it was. *)
Theorem update_status (db : table) (now i : string) (drawing : DrawingUpdate) :
  (fst (update_drawing db now i drawing) = HTTPException 404
   <-> select_by_id db i = None) /\
  (fst (update_drawing db now i drawing) = HTTPException 400
   <-> select_by_id db i <> None /\ ~ some_field_present drawing) /\
  (fst (update_drawing db now i drawing) = HTTPException 404
   \/ fst (update_drawing db now i drawing) = HTTPException 400 ->
   snd (update_drawing db now i drawing) = db).
Proof.
  destruct (select_by_id db i) as [r|] eqn:Hsel.
  - destruct (update_fields drawing) as [|f fields] eqn:E.
    + assert (Hno : ~ some_field_present drawing)
        by (intros H; apply update_fields_present in H; congruence).
      unfold update_drawing. rewrite Hsel, E. cbn [fst snd].
      split; [|split].
      * split; discriminate.
      * split; [intros _; split; [discriminate | exact Hno] | reflexivity].
      * reflexivity.
    + assert (Hpres : some_field_present drawing)
        by (apply update_fields_present; rewrite E; discriminate).
      rewrite (@update_drawing_present db now i drawing r Hsel Hpres).
      destruct (response_of_row (merge r drawing now)); cbn [fst snd];
        (split; [|split];
         [ split; discriminate
         | split; [discriminate | intros [_ H]; contradiction]
         | intros [H | H]; discriminate H ]).
  - unfold update_drawing. rewrite Hsel. cbn [fst snd].
    split; [|split].
    + split; reflexivity.
    + split; [discriminate | intros [H _]; contradiction H; reflexivity].
    + reflexivity.
Qed.






Section ListFacts.

Lemma responses_ids (rows : list row) (drawings : list DrawingResponse) :
  responses rows = Some drawings -> map response_id drawings = map id rows.
Proof.
  revert drawings. induction rows as [|r rows IH]; simpl; intros drawings H.
  - injection H as <-. reflexivity.
  - destruct (response_of_row r) as [d|] eqn:Hd; [|discriminate].
    destruct (responses rows) as [l|]; [|discriminate].
    injection H as <-. simpl. rewrite (IH l eq_refl).
    apply response_of_row_fields in Hd. destruct Hd as (-> & _). reflexivity.
Qed.

Lemma responses_in (rows : list row) (drawings : list DrawingResponse)
    (d : DrawingResponse) :
  responses rows = Some drawings ->
  (In d drawings <-> exists r, In r rows /\ response_of_row r = Some d).
Proof.
  intros H. apply responses_map in H.
  split.
  - intros Hin. apply (in_map Some) in Hin. rewrite H in Hin.
    apply in_map_iff in Hin. destruct Hin as (r & E & Hr). exists r. auto.
  - intros (r & Hr & E).
    assert (Hin : In (Some d) (map Some drawings)).
    { rewrite H, <- E. apply in_map, Hr. }
    apply in_map_iff in Hin. destruct Hin as (x & Ex & Hx).
    injection Ex as ->. exact Hx.
Qed.




End ListFacts.

(** X12. After every run List and Get agree: List names each id once, and
    a record is in the list exactly when Get returns it for its id. *)
Theorem list_and_get_agree (requests : list request)
    (drawings : list DrawingResponse) :
  get_drawings (run requests) = (Ok drawings, run requests) ->
  NoDup (map response_id drawings) /\
  forall d, In d drawings
            <-> get_drawing (run requests) (response_id d) = (Ok d, run requests).
Proof.
  pose proof (@nodup_ids_fold requests init_db ltac:(constructor)) as Hnd.
  fold (run requests) in Hnd.
  generalize dependent (run requests). intros db Hnd Hlist.
  unfold get_drawings in Hlist.
  destruct (responses (order_by_updated_at_desc db)) as [l|] eqn:Hl; [|discriminate].
  injection Hlist as ->.
  split.
  - rewrite (@responses_ids _ _ Hl).
    apply (Permutation_NoDup (l := map id db)); [|exact Hnd].
    apply Permutation_map. symmetry. apply order_by_perm.
  - intros d. rewrite (@responses_in _ _ d Hl). split.
    + intros (r & Hr & E).
      rewrite (order_by_perm db) in Hr.
      pose proof (@response_of_row_fields _ _ E) as (Hid & _).
      unfold get_drawing. rewrite Hid, (@select_by_id_in db r Hnd Hr), E. reflexivity.
    + intros Hget. destruct (get_drawing_ok _ _ Hget) as (r & Hsel & E).
      exists r. split; [|exact E].
      rewrite (order_by_perm db). apply select_by_id_some in Hsel. tauto.
Qed.

Lemma list_and_get_agree_witness :
  NoDup (map response_id
           [{| response_id := sample_id;
               response_name := "sketch";
               response_preview_image := "iVBORw0KGgo=";
               response_canvas_state := sample_canvas;
               response_created_at := "2024-05-01T10:00:00.250000";
               response_updated_at := "2024-05-01T10:00:00.250000" |}]).
Proof.
  exact (proj1 (@list_and_get_agree
                  [Create 7 "2024-05-01T10:00:00.250000" sample_drawing] _ eq_refl)).
Defined.



Section ComposeFacts.







End ComposeFacts.



Section AsciiFacts.







End AsciiFacts.


Section UuidFacts.

Local Open Scope N_scope.








End UuidFacts.





(** X18. After a Delete that succeeds, List returns no record of the
    deleted id. *)
Theorem deleted_record_is_not_listed (db db' : table) (i message : string)
    (drawings : list DrawingResponse) :
  delete_drawing db i = (Ok message, db') ->
  get_drawings db' = (Ok drawings, db') ->
  forall d, In d drawings -> response_id d <> i.
Proof.
  intros Hdel Hlist d Hd.
  unfold delete_drawing in Hdel.
  destruct (Nat.eqb (List.length db - List.length (delete_where_id db i)) 0);
    [discriminate|].
  injection Hdel as _ <-.
  unfold get_drawings in Hlist.
  destruct (responses (order_by_updated_at_desc (delete_where_id db i))) as [l|] eqn:Hl;
    [|discriminate].
  injection Hlist as ->.
  apply (@responses_in _ _ d Hl) in Hd. destruct Hd as (r & Hr & E).
  rewrite (order_by_perm (delete_where_id db i)) in Hr.
  unfold delete_where_id in Hr. apply filter_In in Hr. destruct Hr as [_ Hne].
  apply response_of_row_fields in E. destruct E as (-> & _).
  destruct (String.eqb_spec (id r) i); [discriminate | assumption].
Qed.

Lemma deleted_record_is_not_listed_witness :
  "00000000-0000-4000-8000-000000000008" <> sample_id.
Proof.
  refine (@deleted_record_is_not_listed
            (run [Create 7 "2024-05-01T10:00:00.250000" sample_drawing;
                  Create 8 "2024-05-01T10:00:01" sample_drawing])
            (run [Create 8 "2024-05-01T10:00:01" sample_drawing])
            sample_id "Drawing deleted successfully"
            [{| response_id := "00000000-0000-4000-8000-000000000008";
                response_name := "sketch";
                response_preview_image := "iVBORw0KGgo=";
                response_canvas_state := sample_canvas;
                response_created_at := "2024-05-01T10:00:01";
                response_updated_at := "2024-05-01T10:00:01" |}]
            _ _ _ (or_introl eq_refl)).
  - vm_compute. reflexivity.
  - vm_compute. reflexivity.
Defined.


